(** * telefunc: the end-to-end test configuration [test-e2e.config.mjs]

  The module exports a CI job matrix built by [getCiJobs] and the log
  filter [tolerateError].  Both are embedded below as Rocq functions over
  a small model of the JavaScript values they handle.  [getCiJobs] is
  embedded twice: as the list of records it denotes, and as the program
  that builds that list as fresh objects in the heap; the two are proved
  to agree. *)

From Stdlib Require Import NArith Ascii String List Bool Lia.
From stdpp Require Import base option list gmap.

(** ** JavaScript values, strings and completions *)

Module JS.

(** A JavaScript string is a finite sequence of UTF-16 code units.  Code
    units are kept as [N]; nothing below depends on the bound 65535. *)
Definition jsstring : Type := list N.

(** A source literal made of ASCII characters only. *)
Definition lit (s : string) : jsstring :=
  map N_of_ascii (list_ascii_of_string s).

(** The code unit of the double quote, which occurs inside two literals. *)
Definition dquote : N := 34%N.

(** The primitive values that log entries carry in their fields.  A field
    that holds an array, a Buffer, a String object or an object with an
    [includes] of its own is outside this model, and so is every statement
    below about fields that are not strings. *)
Inductive value : Type :=
| VUndefined
| VNull
| VBool (b : bool)
| VString (s : jsstring).

Inductive error : Type :=
| TypeError.

(** A completion record: a normal result or a thrown exception. *)
Inductive completion (A : Type) : Type :=
| Normal (a : A)
| Throw (e : error).
Arguments Normal {A} a.
Arguments Throw {A} e.

#[global] Instance completion_ret : MRet completion := fun _ a => Normal a.
#[global] Instance completion_bind : MBind completion := fun _ _ f c =>
  match c with
  | Normal a => f a
  | Throw e => Throw e
  end.

#[global] Instance value_eq_dec : EqDecision value.
Proof. solve_decision. Defined.

(** A plain data object: own data properties, looked up by name.  Reading
    a property the object lacks gives [undefined]. *)
Definition object : Type := gmap jsstring value.

Definition Get (o : object) (key : jsstring) : value :=
  default VUndefined (o !! key).

(** [ToBoolean] of ECMAScript, on the values of the model. *)
Definition ToBoolean (v : value) : bool :=
  match v with
  | VUndefined | VNull => false
  | VBool b => b
  | VString s => negb (bool_decide (s = []))
  end.

(** [x === y] on primitive values: same type and same value. *)
Definition IsStrictlyEqual (x y : value) : bool :=
  match x, y with
  | VUndefined, VUndefined => true
  | VNull, VNull => true
  | VBool a, VBool b => eqb a b
  | VString s, VString t => bool_decide (s = t)
  | _, _ => false
  end.

(** [l || r] and [l && r]: the right operand is evaluated only when the
    left one does not decide the result, and the result is the operand
    itself, not its truth value. *)
Definition logical_or (l : completion value) (r : unit -> completion value)
  : completion value :=
  lval ← l; if ToBoolean lval then mret lval else r ().

Definition logical_and (l : completion value) (r : unit -> completion value)
  : completion value :=
  lval ← l; if ToBoolean lval then r () else mret lval.

(** Does [searchValue] occur in [s] at its very start? *)
Fixpoint isStringPrefix (searchValue s : jsstring) : bool :=
  match searchValue, s with
  | [], _ => true
  | _ :: _, [] => false
  | c :: searchValue', d :: s' => N.eqb c d && isStringPrefix searchValue' s'
  end.

(** [StringIndexOf] of ECMAScript: the candidate positions are tried in
    ascending order; [i] is the index of the first code unit of [s] in the
    string the search started on. *)
Fixpoint StringIndexOf (s searchValue : jsstring) (i : nat) : option nat :=
  if isStringPrefix searchValue s then Some i
  else match s with
       | [] => None
       | _ :: s' => StringIndexOf s' searchValue (S i)
       end.

(** [String.prototype.includes(searchString)] with the default position 0. *)
Definition String_includes (s searchString : jsstring) : bool :=
  bool_decide (is_Some (StringIndexOf s searchString 0)).

(** The method call [this.includes(searchString)] with a string argument,
    on the primitive receivers of the model.  Only strings carry the method
    among them: on [undefined] and [null] the property access throws, on a
    boolean the property is [undefined] and the call throws. *)
Definition invoke_includes (this : value) (searchString : jsstring)
  : completion value :=
  match this with
  | VString s => Normal (VBool (String_includes s searchString))
  | _ => Throw TypeError
  end.

(** The property the spec calls "contains the substring". *)
Definition contains_substring (s t : jsstring) : Prop :=
  exists pre post, s = pre ++ t ++ post.

End JS.

Import JS.

(** ** The module [test-e2e.config.mjs] *)

Module TestE2EConfig.

(** An entry of a job's [setups]: the runner image and the Node.js version. *)
Record Setup : Type := { os : jsstring; node_version : jsstring }.

(** An entry of the job matrix. *)
Record Job : Type := { name : jsstring; setups : list Setup }.

(** [getCiJobs()]: six setups bound to local constants, then the array of
    jobs that refer to them.  Several jobs refer to the same setup object;
    nothing in the module writes to one, so the setups are plain values
    here. *)
Definition getCiJobs (_ : unit) : list Job :=
  let ubuntu18 := {| os := lit "ubuntu-latest"; node_version := lit "18" |} in
  let ubuntu16 := {| os := lit "ubuntu-latest"; node_version := lit "16" |} in
  let ubuntu17 := {| os := lit "ubuntu-latest"; node_version := lit "17" |} in
  let win14 := {| os := lit "windows-latest"; node_version := lit "14" |} in
  let win18 := {| os := lit "windows-latest"; node_version := lit "18" |} in
  let mac17 := {| os := lit "macos-latest"; node_version := lit "17" |} in
  [ {| name := lit "Vite"; setups := [ubuntu18; win14; mac17] |};
    {| name := lit "React Native"; setups := [ubuntu16] |};
    {| name := lit "Cloudflare Workers"; setups := [ubuntu17] |};
    {| name := lit "Next.js"; setups := [ubuntu16; win14] |};
    {| name := lit "Nuxt 2"; setups := [ubuntu16; win14] |};
    {| name := lit "SvelteKit"; setups := [ubuntu16; win18] |};
    {| name := lit "Prisma"; setups := [win14; mac17] |};
    {| name := lit "https://telefunc.com"; setups := [ubuntu18] |} ].

(** The two messages searched for; each holds a quoted name. *)
Definition emptyChunkMessage : jsstring :=
  lit "Generated an empty chunk: " ++ [dquote] ++ lit "hooks" ++ [dquote].

Definition baseConfigMessage : jsstring :=
  lit "Cannot find base config file " ++ [dquote]
    ++ lit "./.svelte-kit/tsconfig.json" ++ [dquote].

(** The two inner functions of [tolerateError]; they close over the
    destructured [logSource] and [logText], passed here as arguments. *)
Definition isRollupEmptyChunkWarning (logSource logText : value) (_ : unit)
  : completion value :=
  logical_and
    (mret (VBool (IsStrictlyEqual logSource (VString (lit "stderr")))))
    (fun _ => invoke_includes logText emptyChunkMessage).

Definition isSveltekitTypesGenWarning (logSource logText : value) (_ : unit)
  : completion value :=
  logical_and
    (mret (VBool (IsStrictlyEqual logSource (VString (lit "stderr")))))
    (fun _ => invoke_includes logText baseConfigMessage).

(** [tolerateError({ logSource, logText })]. *)
Definition tolerateError (arg : object) : completion value :=
  let logSource := Get arg (lit "logSource") in
  let logText := Get arg (lit "logText") in
  logical_or
    (isRollupEmptyChunkWarning logSource logText ())
    (isSveltekitTypesGenWarning logSource logText).

(** The default export. *)
Record Ci : Type := { jobs : list Job }.

Record Config : Type :=
  { ci : Ci; tolerateError_prop : object -> completion value }.

Definition default_export : Config :=
  {| ci := {| jobs := getCiJobs () |}; tolerateError_prop := tolerateError |}.

(** Modelled from the spec: the frameworks its prose lists by name, the
    list the configuration is compared with. *)
Definition spec_frameworks : list jsstring :=
  [lit "Vite"; lit "Next.js"; lit "Nuxt"; lit "SvelteKit"].

(** What the spec says [tolerateError] accepts: the source is stderr and
    the text contains one of the two messages. *)
Definition tolerated (src txt : jsstring) : Prop :=
  src = lit "stderr" /\
  (contains_substring txt emptyChunkMessage \/
   contains_substring txt baseConfigMessage).

(** The images and Node.js versions the matrix may use. *)
Definition known_os : list jsstring :=
  [lit "ubuntu-latest"; lit "windows-latest"; lit "macos-latest"].

Definition known_node_versions : list jsstring :=
  [lit "14"; lit "16"; lit "17"; lit "18"].

(** Sample log entries. *)
Definition entry (logSource logText : jsstring) : object :=
  <[lit "logSource" := VString logSource]>
    (<[lit "logText" := VString logText]> ∅).

Definition rollup_entry : object :=
  entry (lit "stderr") (lit "(!) " ++ emptyChunkMessage ++ lit ".").

Definition stdout_entry : object :=
  entry (lit "stdout") (lit "(!) " ++ emptyChunkMessage ++ lit ".").

Definition svelte_entry : object :=
  entry (lit "stderr") (lit "warn: " ++ baseConfigMessage).

(** The same entry with further fields, one of them not a string. *)
Definition rollup_entry_extra : object :=
  <[lit "pid" := VString (lit "4711")]>
    (<[lit "isFlaky" := VBool true]> rollup_entry).

(** Entries whose fields are not both strings. *)
Definition no_text_entry : object :=
  <[lit "logSource" := VString (lit "stderr")]> ∅.

Definition null_text_stdout_entry : object :=
  <[lit "logSource" := VString (lit "stdout")]>
    (<[lit "logText" := VNull]> ∅).

(** An entry whose text is the first message and nothing else. *)
Definition bare_rollup_entry : object :=
  entry (lit "stderr") emptyChunkMessage.

End TestE2EConfig.

Import TestE2EConfig.

(** ** [getCiJobs] as a program on the heap *)

Module HeapModel.

(** Objects and arrays live in a heap and are known by their location; a
    value is a string, a reference, or the function object of a hoisted
    declaration, named by the declaration. *)
Definition loc : Type := nat.

Inductive hvalue : Type :=
| HString (s : jsstring)
| HRef (l : loc)
| HFunction (fname : jsstring).

(** The properties of an object in the order of their definition; a later
    definition of a key overrides an earlier one. *)
Inductive hobject : Type :=
| HObject (props : list (jsstring * hvalue))
| HArray (elems : list hvalue).

(** The heap is everything a program can reach: the objects of the
    environment and those that earlier calls have built and callers have
    since written to. *)
Definition heap : Type := list hobject.

(** Computations that read and write the heap. *)
Definition M (A : Type) : Type := heap -> A * heap.

#[global] Instance M_ret : MRet M := fun _ a h => (a, h).
#[global] Instance M_bind : MBind M := fun _ _ f m h =>
  let (a, h') := m h in f a h'.

(** A fresh location holding [o]; no location is ever reused. *)
Definition alloc (o : hobject) : M loc :=
  fun h => (length h, h ++ [o]).

(** A write to the object at [l]. *)
Definition update (l : loc) (f : hobject -> hobject) : M unit :=
  fun h => (tt, alter f l h).

Definition addProperty (key : jsstring) (v : hvalue) (o : hobject) : hobject :=
  match o with
  | HObject props => HObject (props ++ [(key, v)])
  | HArray elems => HArray elems
  end.

Definition addElement (v : hvalue) (o : hobject) : hobject :=
  match o with
  | HObject props => HObject props
  | HArray elems => HArray (elems ++ [v])
  end.

(** An object literal creates the object, then evaluates its property
    values from left to right and defines each on the new object; an array
    literal does the same with its elements. *)
Fixpoint defineProperties (l : loc) (ps : list (jsstring * M hvalue)) : M unit :=
  match ps with
  | [] => mret tt
  | (key, e) :: ps' =>
      v ← e; _ ← update l (addProperty key v); defineProperties l ps'
  end.

Fixpoint appendElements (l : loc) (es : list (M hvalue)) : M unit :=
  match es with
  | [] => mret tt
  | e :: es' => v ← e; _ ← update l (addElement v); appendElements l es'
  end.

Definition objectLiteral (ps : list (jsstring * M hvalue)) : M hvalue :=
  l ← alloc (HObject []); _ ← defineProperties l ps; mret (HRef l).

Definition arrayLiteral (es : list (M hvalue)) : M hvalue :=
  l ← alloc (HArray []); _ ← appendElements l es; mret (HRef l).

(** A string literal. *)
Definition str (s : string) : M hvalue := mret (HString (lit s)).

(** [getCiJobs()], lines 8 to 68: the six setups are built once per call
    and the jobs refer to them, several jobs to the same one.  The body
    names nothing but its own six constants, so the heap is all it could
    depend on. *)
Definition getCiJobs : M hvalue :=
  ubuntu18 ← objectLiteral
    [(lit "os", str "ubuntu-latest"); (lit "node_version", str "18")];
  ubuntu16 ← objectLiteral
    [(lit "os", str "ubuntu-latest"); (lit "node_version", str "16")];
  ubuntu17 ← objectLiteral
    [(lit "os", str "ubuntu-latest"); (lit "node_version", str "17")];
  win14 ← objectLiteral
    [(lit "os", str "windows-latest"); (lit "node_version", str "14")];
  win18 ← objectLiteral
    [(lit "os", str "windows-latest"); (lit "node_version", str "18")];
  mac17 ← objectLiteral
    [(lit "os", str "macos-latest"); (lit "node_version", str "17")];
  arrayLiteral
    [ objectLiteral
        [(lit "name", str "Vite");
         (lit "setups", arrayLiteral [mret ubuntu18; mret win14; mret mac17])];
      objectLiteral
        [(lit "name", str "React Native");
         (lit "setups", arrayLiteral [mret ubuntu16])];
      objectLiteral
        [(lit "name", str "Cloudflare Workers");
         (lit "setups", arrayLiteral [mret ubuntu17])];
      objectLiteral
        [(lit "name", str "Next.js");
         (lit "setups", arrayLiteral [mret ubuntu16; mret win14])];
      objectLiteral
        [(lit "name", str "Nuxt 2");
         (lit "setups", arrayLiteral [mret ubuntu16; mret win14])];
      objectLiteral
        [(lit "name", str "SvelteKit");
         (lit "setups", arrayLiteral [mret ubuntu16; mret win18])];
      objectLiteral
        [(lit "name", str "Prisma");
         (lit "setups", arrayLiteral [mret win14; mret mac17])];
      objectLiteral
        [(lit "name", str "https://telefunc.com");
         (lit "setups", arrayLiteral [mret ubuntu18])] ].

(** The default export, lines 1 to 6, evaluated when the module loads. *)
Definition default_export : M hvalue :=
  objectLiteral
    [ (lit "ci", objectLiteral [(lit "jobs", getCiJobs)]);
      (lit "tolerateError", mret (HFunction (lit "tolerateError"))) ].

(** *** Reading a value back from the heap *)

(** [o[key]] on the own properties of an object. *)
Fixpoint getProperty (props : list (jsstring * hvalue)) (key : jsstring)
  : option hvalue :=
  match props with
  | [] => None
  | (k, v) :: props' =>
      match getProperty props' key with
      | Some v' => Some v'
      | None => if bool_decide (k = key) then Some v else None
      end
  end.

Definition readProperty (h : heap) (v : hvalue) (key : jsstring) : option hvalue :=
  match v with
  | HRef l => match h !! l with
              | Some (HObject props) => getProperty props key
              | _ => None
              end
  | _ => None
  end.

Definition readElements (h : heap) (v : hvalue) : option (list hvalue) :=
  match v with
  | HRef l => match h !! l with
              | Some (HArray elems) => Some elems
              | _ => None
              end
  | _ => None
  end.

Definition readString (v : hvalue) : option jsstring :=
  match v with HString s => Some s | _ => None end.

Fixpoint readAll {A : Type} (f : hvalue -> option A) (vs : list hvalue)
  : option (list A) :=
  match vs with
  | [] => Some []
  | v :: vs' =>
      match f v, readAll f vs' with
      | Some a, Some l => Some (a :: l)
      | _, _ => None
      end
  end.

Definition readStringProperty (h : heap) (v : hvalue) (key : jsstring)
  : option jsstring :=
  match readProperty h v key with
  | Some w => readString w
  | None => None
  end.

Definition readArray {A : Type} (f : hvalue -> option A) (h : heap) (v : hvalue)
  : option (list A) :=
  match readElements h v with
  | Some vs => readAll f vs
  | None => None
  end.

(** What a reader of the matrix sees: the setup, the job and the list of
    jobs that a value stands for in a heap, if it has that shape. *)
Definition readSetup (h : heap) (v : hvalue) : option Setup :=
  match readStringProperty h v (lit "os"),
        readStringProperty h v (lit "node_version") with
  | Some o, Some n => Some {| os := o; node_version := n |}
  | _, _ => None
  end.

Definition readJob (h : heap) (v : hvalue) : option Job :=
  match readStringProperty h v (lit "name"),
        readProperty h v (lit "setups") with
  | Some n, Some a =>
      match readArray (readSetup h) h a with
      | Some ss => Some {| name := n; setups := ss |}
      | None => None
      end
  | _, _ => None
  end.

Definition readJobs (h : heap) (v : hvalue) : option (list Job) :=
  readArray (readJob h) h v.

(** [v.ci.jobs] read as a list of jobs. *)
Definition readExportJobs (h : heap) (v : hvalue) : option (list Job) :=
  match readProperty h v (lit "ci") with
  | Some c =>
      match readProperty h c (lit "jobs") with
      | Some j => readJobs h j
      | None => None
      end
  | None => None
  end.

End HeapModel.

(** ** String search *)

Section StringSearch.

Implicit Types s t pre post : jsstring.

Lemma isStringPrefix_true t s :
  isStringPrefix t s = true <-> exists post, s = t ++ post.
Proof.
  revert s. induction t as [|c t IH]; intros s; simpl.
  - split; [eauto | done].
  - destruct s as [|d s].
    + split; [done | intros [post H]; discriminate H].
    + rewrite andb_true_iff, N.eqb_eq, IH. split.
      * intros [-> [post ->]]. eauto.
      * intros [post H]. injection H as -> ->. eauto.
Qed.

(** The index found is the position of an occurrence, counted from [i]. *)
Lemma StringIndexOf_Some s t i k :
  StringIndexOf s t i = Some k ->
  exists pre post, s = pre ++ t ++ post /\ k = i + length pre.
Proof.
  revert i. induction s as [|c s IH]; intros i; simpl.
  - destruct (isStringPrefix t []) eqn:E; [|done].
    intros [= <-]. apply isStringPrefix_true in E as [post E].
    exists [], post. simpl. split; [done | lia].
  - destruct (isStringPrefix t (c :: s)) eqn:E.
    + intros [= <-]. apply isStringPrefix_true in E as [post E].
      exists [], post. simpl. split; [done | lia].
    + intros H. apply IH in H as (pre & post & -> & ->).
      exists (c :: pre), post. simpl. split; [done | lia].
Qed.

Lemma StringIndexOf_here s t i :
  isStringPrefix t s = true -> StringIndexOf s t i = Some i.
Proof. intros E. destruct s; simpl; rewrite E; done. Qed.

(** Every occurrence is found, at its position or before it. *)
Lemma StringIndexOf_complete pre t post i :
  exists k, StringIndexOf (pre ++ t ++ post) t i = Some k /\ k <= i + length pre.
Proof.
  revert i. induction pre as [|c pre IH]; intros i.
  - exists i. split; [|lia]. apply StringIndexOf_here.
    apply isStringPrefix_true. simpl. eauto.
  - simpl. destruct (isStringPrefix t (c :: pre ++ t ++ post)).
    + exists i. split; [done | lia].
    + destruct (IH (S i)) as (k & Hk & Hle). exists k. split; [done | lia].
Qed.

Lemma String_includes_true s t :
  String_includes s t = true <-> contains_substring s t.
Proof.
  unfold String_includes, contains_substring.
  rewrite bool_decide_eq_true. split.
  - intros [k Hk]. apply StringIndexOf_Some in Hk as (pre & post & -> & _). eauto.
  - intros (pre & post & ->).
    destruct (StringIndexOf_complete pre t post 0) as (k & -> & _). eauto.
Qed.

Lemma String_includes_false s t :
  String_includes s t = false <-> ~ contains_substring s t.
Proof. rewrite <- String_includes_true. destruct (String_includes s t); naive_solver. Qed.

End StringSearch.

(** ** [tolerateError] *)

Section TolerateError.

Implicit Types arg : object.
Implicit Types src txt : jsstring.

(** On string fields the body reduces to a boolean expression. *)
Lemma tolerateError_strings arg src txt :
  Get arg (lit "logSource") = VString src ->
  Get arg (lit "logText") = VString txt ->
  tolerateError arg =
    Normal (VBool (bool_decide (src = lit "stderr") &&
                   (String_includes txt emptyChunkMessage ||
                    String_includes txt baseConfigMessage))).
Proof.
  intros Hsrc Htxt. unfold tolerateError. rewrite Hsrc, Htxt.
  unfold isRollupEmptyChunkWarning, isSveltekitTypesGenWarning,
    logical_or, logical_and, invoke_includes, IsStrictlyEqual.
  destruct (bool_decide (src = lit "stderr")); simpl; [|done].
  destruct (String_includes txt emptyChunkMessage); simpl; [done|].
  destruct (String_includes txt baseConfigMessage); done.
Qed.

Lemma tolerated_decide src txt :
  bool_decide (src = lit "stderr") &&
    (String_includes txt emptyChunkMessage ||
     String_includes txt baseConfigMessage) = true <-> tolerated src txt.
Proof.
  unfold tolerated.
  rewrite andb_true_iff, orb_true_iff, bool_decide_eq_true,
    !String_includes_true. done.
Qed.

End TolerateError.

(** What the body does on the sample entries. *)
Example tolerateError_rollup_entry :
  tolerateError rollup_entry = Normal (VBool true).
Proof. vm_compute. reflexivity. Qed.

Example tolerateError_svelte_entry :
  tolerateError svelte_entry = Normal (VBool true).
Proof. vm_compute. reflexivity. Qed.

Example tolerateError_stdout_entry :
  tolerateError stdout_entry = Normal (VBool false).
Proof. vm_compute. reflexivity. Qed.

(** Outside the domain of the claims: with [logSource] equal to stderr the
    call of [includes] on a missing [logText] throws, while any other source
    short-circuits before the call. *)
Example tolerateError_no_text_entry :
  tolerateError no_text_entry = Throw TypeError.
Proof. vm_compute. reflexivity. Qed.

Example tolerateError_null_text_stdout_entry :
  tolerateError null_text_stdout_entry = Normal (VBool false).
Proof. vm_compute. reflexivity. Qed.

(** C2: for an argument whose logSource and logText are strings,
    tolerateError returns true exactly when logSource is stderr and logText
    contains one of the two messages, and false otherwise; in particular it
    returns false whenever logSource is not stderr. *)
Theorem tolerateError_iff arg src txt :
  Get arg (lit "logSource") = VString src ->
  Get arg (lit "logText") = VString txt ->
  (tolerateError arg = Normal (VBool true) <-> tolerated src txt) /\
  (tolerateError arg = Normal (VBool false) <-> ~ tolerated src txt) /\
  (src <> lit "stderr" -> tolerateError arg = Normal (VBool false)).
Proof.
  intros Hsrc Htxt. rewrite (tolerateError_strings arg src txt Hsrc Htxt).
  rewrite <- tolerated_decide.
  destruct (bool_decide_reflect (src = lit "stderr")) as [->|Hne]; simpl.
  - destruct (_ || _); naive_solver.
  - naive_solver.
Qed.

Lemma tolerateError_iff_witness :
  (tolerateError rollup_entry = Normal (VBool true) <->
     tolerated (lit "stderr") (lit "(!) " ++ emptyChunkMessage ++ lit ".")) /\
  (tolerateError rollup_entry = Normal (VBool false) <->
     ~ tolerated (lit "stderr") (lit "(!) " ++ emptyChunkMessage ++ lit ".")) /\
  (lit "stderr" <> lit "stderr" ->
     tolerateError rollup_entry = Normal (VBool false)).
Proof.
  apply (tolerateError_iff rollup_entry); vm_compute; reflexivity.
Defined.

(** C4: for an argument whose logSource and logText are strings,
    tolerateError completes normally with a boolean: it neither throws nor
    returns any other kind of value.  Termination and the absence of effects
    are carried by the embedding: the body has no loop and no assignment,
    and [tolerateError] is a total function of its argument alone. *)
Theorem tolerateError_total arg src txt :
  Get arg (lit "logSource") = VString src ->
  Get arg (lit "logText") = VString txt ->
  exists b : bool, tolerateError arg = Normal (VBool b).
Proof.
  intros Hsrc Htxt. rewrite (tolerateError_strings arg src txt Hsrc Htxt). eauto.
Qed.

Lemma tolerateError_total_witness :
  exists b : bool, tolerateError stdout_entry = Normal (VBool b).
Proof.
  apply (tolerateError_total stdout_entry (lit "stdout")
           (lit "(!) " ++ emptyChunkMessage ++ lit "."));
    vm_compute; reflexivity.
Defined.

(** C6: two arguments that agree on logSource and on logText get the same
    result from tolerateError, whatever other fields they have. *)
Theorem tolerateError_fields_only (arg1 arg2 : object) :
  Get arg1 (lit "logSource") = Get arg2 (lit "logSource") ->
  Get arg1 (lit "logText") = Get arg2 (lit "logText") ->
  tolerateError arg1 = tolerateError arg2.
Proof. intros Hsrc Htxt. unfold tolerateError. rewrite Hsrc, Htxt. done. Qed.

Lemma tolerateError_fields_only_witness :
  rollup_entry <> rollup_entry_extra /\
  tolerateError rollup_entry = tolerateError rollup_entry_extra.
Proof.
  split.
  - intros H. apply (f_equal (fun o : object => Get o (lit "pid"))) in H.
    vm_compute in H. discriminate H.
  - apply (tolerateError_fields_only rollup_entry rollup_entry_extra);
      vm_compute; reflexivity.
Defined.

(** ** The job matrix *)

(** The names of the jobs, in the order of the array. *)
Lemma getCiJobs_map_name u :
  map name (getCiJobs u) =
    [lit "Vite"; lit "React Native"; lit "Cloudflare Workers"; lit "Next.js";
     lit "Nuxt 2"; lit "SvelteKit"; lit "Prisma"; lit "https://telefunc.com"].
Proof. reflexivity. Qed.

(** A job is in the matrix only under one of the eight names. *)
Lemma getCiJobs_In_name u j :
  In j (getCiJobs u) ->
  In (name j)
    [lit "Vite"; lit "React Native"; lit "Cloudflare Workers"; lit "Next.js";
     lit "Nuxt 2"; lit "SvelteKit"; lit "Prisma"; lit "https://telefunc.com"].
Proof. intros Hj. rewrite <- (getCiJobs_map_name u). apply in_map, Hj. Qed.

(** C1, as the code has it: for every framework the spec lists, the matrix
    has a job whose name begins with the framework's name; the name is the
    framework's name itself for Vite, Next.js and SvelteKit, and it is
    Nuxt 2 for Nuxt. *)
Theorem getCiJobs_frameworks (f : jsstring) :
  In f spec_frameworks ->
  exists j, In j (getCiJobs ()) /\
    isStringPrefix f (name j) = true /\
    (f <> lit "Nuxt" -> name j = f) /\
    (f = lit "Nuxt" -> name j = lit "Nuxt 2").
Proof.
  intros Hf. simpl in Hf.
  destruct Hf as [<-|[<-|[<-|[<-|[]]]]].
  - exists (nth 0 (getCiJobs ()) {| name := []; setups := [] |}).
    vm_compute. intuition discriminate.
  - exists (nth 3 (getCiJobs ()) {| name := []; setups := [] |}).
    vm_compute. intuition discriminate.
  - exists (nth 4 (getCiJobs ()) {| name := []; setups := [] |}).
    vm_compute. intuition congruence.
  - exists (nth 5 (getCiJobs ()) {| name := []; setups := [] |}).
    vm_compute. intuition discriminate.
Qed.

Lemma getCiJobs_frameworks_witness :
  exists j, In j (getCiJobs ()) /\
    isStringPrefix (lit "Nuxt") (name j) = true /\
    (lit "Nuxt" <> lit "Nuxt" -> name j = lit "Nuxt") /\
    (lit "Nuxt" = lit "Nuxt" -> name j = lit "Nuxt 2").
Proof.
  apply (getCiJobs_frameworks (lit "Nuxt")). simpl. auto.
Defined.

(** C1, as the spec states it, fails: no job of the matrix is named Nuxt,
    so not every listed framework names a job. *)
Lemma getCiJobs_frameworks_exact_fails :
  ~ (forall f, In f spec_frameworks ->
       exists j, In j (getCiJobs ()) /\ name j = f).
Proof.
  intros H. destruct (H (lit "Nuxt")) as (j & Hj & Hname).
  - simpl. auto.
  - apply getCiJobs_In_name in Hj. rewrite Hname in Hj.
    vm_compute in Hj. intuition discriminate.
Qed.

(** C5: every job of the matrix has a non-empty name and at least one
    setup, and every setup names one of the three images and one of the
    four Node.js versions. *)
Theorem getCiJobs_wellformed (j : Job) :
  In j (getCiJobs ()) ->
  name j <> [] /\ setups j <> [] /\
  forall s, In s (setups j) ->
    In (os s) known_os /\ In (node_version s) known_node_versions.
Proof.
  intros Hj. simpl in Hj.
  repeat (destruct Hj as [<-|Hj]); [..|destruct Hj];
    (split; [discriminate|]; split; [discriminate|]);
    intros s Hs; simpl in Hs;
    repeat (destruct Hs as [<-|Hs]); [..|destruct Hs];
    vm_compute; tauto.
Qed.

Lemma getCiJobs_wellformed_witness :
  name (nth 0 (getCiJobs ()) {| name := []; setups := [] |}) <> [] /\
  setups (nth 0 (getCiJobs ()) {| name := []; setups := [] |}) <> [] /\
  forall s, In s (setups (nth 0 (getCiJobs ()) {| name := []; setups := [] |})) ->
    In (os s) known_os /\ In (node_version s) known_node_versions.
Proof.
  apply (getCiJobs_wellformed (nth 0 (getCiJobs ()) {| name := []; setups := [] |})).
  simpl. auto.
Defined.

(** C7: getCiJobs returns exactly eight jobs, their names are pairwise
    distinct, and they come in the order Vite, React Native, Cloudflare
    Workers, Next.js, Nuxt 2, SvelteKit, Prisma, https://telefunc.com. *)
Theorem getCiJobs_names :
  length (getCiJobs ()) = 8 /\
  NoDup (map name (getCiJobs ())) /\
  map name (getCiJobs ()) =
    [lit "Vite"; lit "React Native"; lit "Cloudflare Workers"; lit "Next.js";
     lit "Nuxt 2"; lit "SvelteKit"; lit "Prisma"; lit "https://telefunc.com"].
Proof.
  split; [reflexivity|]. split; [|reflexivity].
  apply (bool_decide_unpack _). vm_compute. exact I.
Qed.

(** ** Further properties of [tolerateError] *)

Section TolerateErrorCases.

Implicit Types arg : object.
Implicit Types logSource logText v : value.
Implicit Types s t txt pre post : jsstring.

Lemma IsStrictlyEqual_string v s :
  IsStrictlyEqual v (VString s) = true <-> v = VString s.
Proof.
  destruct v as [| |b|t]; simpl; try (split; [discriminate|discriminate]).
  rewrite bool_decide_eq_true. split; [intros ->|intros [= ->]]; done.
Qed.

(** Each inner function tests the source first and calls [includes] only
    on a match. *)
Lemma isRollupEmptyChunkWarning_cases logSource logText u :
  isRollupEmptyChunkWarning logSource logText u =
    if IsStrictlyEqual logSource (VString (lit "stderr"))
    then invoke_includes logText emptyChunkMessage
    else Normal (VBool false).
Proof.
  unfold isRollupEmptyChunkWarning, logical_and. simpl.
  destruct (IsStrictlyEqual _ _); done.
Qed.

Lemma isSveltekitTypesGenWarning_cases logSource logText u :
  isSveltekitTypesGenWarning logSource logText u =
    if IsStrictlyEqual logSource (VString (lit "stderr"))
    then invoke_includes logText baseConfigMessage
    else Normal (VBool false).
Proof.
  unfold isSveltekitTypesGenWarning, logical_and. simpl.
  destruct (IsStrictlyEqual _ _); done.
Qed.

(** The body on every argument of the model. *)
Lemma tolerateError_cases arg :
  tolerateError arg =
    if IsStrictlyEqual (Get arg (lit "logSource")) (VString (lit "stderr"))
    then match Get arg (lit "logText") with
         | VString txt =>
             Normal (VBool (String_includes txt emptyChunkMessage ||
                            String_includes txt baseConfigMessage))
         | _ => Throw TypeError
         end
    else Normal (VBool false).
Proof.
  unfold tolerateError, logical_or.
  rewrite isRollupEmptyChunkWarning_cases, isSveltekitTypesGenWarning_cases.
  destruct (IsStrictlyEqual _ _); [|done].
  destruct (Get arg (lit "logText")) as [| |b|txt]; simpl; try done.
  destruct (String_includes txt emptyChunkMessage); done.
Qed.

Lemma contains_substring_extend s t pre post :
  contains_substring s t -> contains_substring (pre ++ s ++ post) t.
Proof.
  intros (pre' & post' & ->). exists (pre ++ pre'), (post' ++ post).
  by rewrite <- !app_assoc.
Qed.

Lemma contains_substring_length s t :
  contains_substring s t -> length t <= length s.
Proof. intros (pre & post & ->). rewrite !length_app. lia. Qed.

Lemma message_lengths :
  length emptyChunkMessage = 33 /\ length baseConfigMessage = 58.
Proof. split; reflexivity. Qed.

End TolerateErrorCases.

(** X1: the first inner check returns true exactly when the source is the
    string stderr and the text is a string that contains the Rollup
    message. *)
Theorem isRollupEmptyChunkWarning_true (logSource logText : value) (u : unit) :
  isRollupEmptyChunkWarning logSource logText u = Normal (VBool true) <->
  logSource = VString (lit "stderr") /\
  exists txt, logText = VString txt /\ contains_substring txt emptyChunkMessage.
Proof.
  rewrite isRollupEmptyChunkWarning_cases, <- IsStrictlyEqual_string.
  destruct (IsStrictlyEqual _ _);
    [|split; [discriminate | intros [[=] _]]].
  destruct logText as [| |b|txt]; simpl;
    try (split; [discriminate | intros [_ (t & [=] & _)]]).
  split.
  - intros [= H]. split; [done|]. exists txt. by rewrite <- String_includes_true.
  - intros [_ (t & [= <-] & H)]. apply String_includes_true in H. by rewrite H.
Qed.

(** X2: the second inner check returns true exactly when the source is the
    string stderr and the text is a string that contains the SvelteKit
    message. *)
Theorem isSveltekitTypesGenWarning_true (logSource logText : value) (u : unit) :
  isSveltekitTypesGenWarning logSource logText u = Normal (VBool true) <->
  logSource = VString (lit "stderr") /\
  exists txt, logText = VString txt /\ contains_substring txt baseConfigMessage.
Proof.
  rewrite isSveltekitTypesGenWarning_cases, <- IsStrictlyEqual_string.
  destruct (IsStrictlyEqual _ _);
    [|split; [discriminate | intros [[=] _]]].
  destruct logText as [| |b|txt]; simpl;
    try (split; [discriminate | intros [_ (t & [=] & _)]]).
  split.
  - intros [= H]. split; [done|]. exists txt. by rewrite <- String_includes_true.
  - intros [_ (t & [= <-] & H)]. apply String_includes_true in H. by rewrite H.
Qed.

(** X4: with logSource the string stderr, a logText that is missing or
    undefined, null, or a boolean makes tolerateError throw a TypeError
    rather than return false. *)
Theorem tolerateError_throws_without_text (arg : object) :
  Get arg (lit "logSource") = VString (lit "stderr") ->
  (Get arg (lit "logText") = VUndefined \/
   Get arg (lit "logText") = VNull \/
   exists b : bool, Get arg (lit "logText") = VBool b) ->
  tolerateError arg = Throw TypeError.
Proof.
  intros Hsrc Htxt. rewrite tolerateError_cases.
  apply IsStrictlyEqual_string in Hsrc. rewrite Hsrc.
  destruct Htxt as [-> | [-> | [b ->]]]; reflexivity.
Qed.

Lemma tolerateError_throws_without_text_witness :
  tolerateError no_text_entry = Throw TypeError.
Proof.
  apply (tolerateError_throws_without_text no_text_entry).
  - vm_compute. reflexivity.
  - left. vm_compute. reflexivity.
Defined.

(** X6: when logSource is anything but the string stderr (another string,
    missing, null, a boolean), tolerateError returns false without looking
    at logText, so it cannot throw there. *)
Theorem tolerateError_other_source (arg : object) :
  Get arg (lit "logSource") <> VString (lit "stderr") ->
  tolerateError arg = Normal (VBool false).
Proof.
  intros Hne. rewrite tolerateError_cases.
  destruct (IsStrictlyEqual _ _) eqn:E; [|done].
  apply IsStrictlyEqual_string in E. done.
Qed.

Lemma tolerateError_other_source_witness :
  tolerateError null_text_stdout_entry = Normal (VBool false).
Proof.
  apply (tolerateError_other_source null_text_stdout_entry).
  intros H. vm_compute in H. discriminate H.
Defined.

(** X7: if tolerateError returns true then logSource is the string stderr,
    and a logText that is a string has at least 33 code units, the length
    of the shorter message: an empty or short text is never tolerated. *)
Theorem tolerateError_true_source_and_length (arg : object) :
  tolerateError arg = Normal (VBool true) ->
  Get arg (lit "logSource") = VString (lit "stderr") /\
  forall txt : jsstring,
    Get arg (lit "logText") = VString txt -> 33 <= length txt.
Proof.
  rewrite tolerateError_cases, <- IsStrictlyEqual_string.
  destruct (IsStrictlyEqual _ _); [|discriminate].
  intros H. split; [reflexivity|]. intros txt Htxt. rewrite Htxt in H.
  injection H as H.
  apply orb_true_iff in H as [H|H];
    apply String_includes_true, contains_substring_length in H;
    destruct message_lengths as [H1 H2]; lia.
Qed.

Lemma tolerateError_true_source_and_length_witness :
  Get rollup_entry (lit "logSource") = VString (lit "stderr") /\
  forall txt : jsstring,
    Get rollup_entry (lit "logText") = VString txt -> 33 <= length txt.
Proof.
  apply (tolerateError_true_source_and_length rollup_entry).
  vm_compute. reflexivity.
Defined.

(** X8: text around a tolerated text does not change the verdict: if an
    entry is tolerated, so is every entry with the same logSource whose
    logText is that text with anything before and after it. *)
Theorem tolerateError_text_extension (arg arg' : object) (txt pre post : jsstring) :
  Get arg' (lit "logSource") = Get arg (lit "logSource") ->
  Get arg (lit "logText") = VString txt ->
  Get arg' (lit "logText") = VString (pre ++ txt ++ post) ->
  tolerateError arg = Normal (VBool true) ->
  tolerateError arg' = Normal (VBool true).
Proof.
  intros Hsrc Htxt Htxt'. rewrite !tolerateError_cases, Hsrc, Htxt, Htxt'.
  destruct (IsStrictlyEqual _ _); [|done].
  intros [= H]. do 2 f_equal.
  apply orb_true_iff in H. apply orb_true_iff.
  destruct H as [H|H]; [left|right];
    apply String_includes_true, contains_substring_extend, String_includes_true, H.
Qed.

Lemma tolerateError_text_extension_witness :
  tolerateError rollup_entry = Normal (VBool true).
Proof.
  apply (tolerateError_text_extension bare_rollup_entry rollup_entry
           emptyChunkMessage (lit "(!) ") (lit "."));
    vm_compute; reflexivity.
Defined.

(** ** Further properties of the job matrix *)

(** X9: no job lists two setups on the same image, so a job runs at most
    once per image and has at most three setups. *)
Theorem getCiJobs_distinct_images (j : Job) :
  In j (getCiJobs ()) ->
  NoDup (map os (setups j)) /\ length (setups j) <= 3.
Proof.
  intros Hj. simpl in Hj.
  repeat (destruct Hj as [<-|Hj]); [..|destruct Hj];
    (split; [apply (bool_decide_unpack _); vm_compute; exact I | simpl; lia]).
Qed.

Lemma getCiJobs_distinct_images_witness :
  NoDup (map os (setups (nth 0 (getCiJobs ()) {| name := []; setups := [] |}))) /\
  length (setups (nth 0 (getCiJobs ()) {| name := []; setups := [] |})) <= 3.
Proof.
  apply (getCiJobs_distinct_images
           (nth 0 (getCiJobs ()) {| name := []; setups := [] |})).
  simpl. auto.
Defined.

(** X10: the images the matrix uses are exactly ubuntu-latest,
    windows-latest and macos-latest, and the Node.js versions it uses are
    exactly 14, 16, 17 and 18: each of them occurs in some setup of some
    job, and nothing else does. *)
Theorem getCiJobs_images_and_versions :
  (forall o : jsstring,
     In o known_os <->
     exists j s, In j (getCiJobs ()) /\ In s (setups j) /\ os s = o) /\
  (forall v : jsstring,
     In v known_node_versions <->
     exists j s, In j (getCiJobs ()) /\ In s (setups j) /\ node_version s = v).
Proof.
  assert (forall (f : Setup -> jsstring) (x : jsstring),
            In x (map f (flat_map setups (getCiJobs ()))) <->
            exists j s, In j (getCiJobs ()) /\ In s (setups j) /\ f s = x) as Hflat.
  { intros f x. rewrite in_map_iff. split.
    - intros (s & <- & Hs). apply in_flat_map in Hs as (j & Hj & Hs). eauto.
    - intros (j & s & Hj & Hs & <-). exists s. split; [done|].
      apply in_flat_map. eauto. }
  split; intros x; rewrite <- Hflat; vm_compute; tauto.
Qed.

(** ** [getCiJobs] on the heap *)

Import HeapModel.

Section HeapReads.

Implicit Types h d : heap.

(** Allocation and writes behind a prefix [h] of the heap leave [h] alone. *)
Lemma alloc_fresh o h d :
  alloc o (h ++ d) = (length h + length d, h ++ (d ++ [o])).
Proof. unfold alloc. by rewrite length_app, app_assoc. Qed.

Lemma update_fresh f h d (k : nat) :
  update (length h + k) f (h ++ d) = (tt, h ++ alter f k d).
Proof. unfold update. f_equal. apply alter_app_r. Qed.

Lemma lookup_fresh h d (k : nat) : (h ++ d) !! (length h + k) = d !! k.
Proof. rewrite lookup_app_r by lia. f_equal. lia. Qed.

Lemma getProperty_single (k : jsstring) (v : hvalue) :
  getProperty [(k, v)] k = Some v.
Proof. simpl. by rewrite bool_decide_eq_true_2. Qed.

Lemma getProperty_pair (k1 k2 : jsstring) (v1 v2 : hvalue) :
  k1 <> k2 ->
  getProperty [(k1, v1); (k2, v2)] k1 = Some v1 /\
  getProperty [(k1, v1); (k2, v2)] k2 = Some v2.
Proof.
  intros Hne. simpl.
  rewrite (bool_decide_eq_false_2 (k2 = k1)) by congruence.
  rewrite (bool_decide_eq_true_2 (k1 = k1)), (bool_decide_eq_true_2 (k2 = k2));
    done.
Qed.

Lemma readSetup_at h (l : loc) (o n : jsstring) :
  h !! l = Some (HObject [(lit "os", HString o); (lit "node_version", HString n)]) ->
  readSetup h (HRef l) = Some {| os := o; node_version := n |}.
Proof.
  intros E. unfold readSetup, readStringProperty, readProperty. rewrite E.
  destruct (getProperty_pair (lit "os") (lit "node_version") (HString o) (HString n))
    as [-> ->]; done.
Qed.

Lemma readJob_at h (l a : loc) (n : jsstring) (vs : list hvalue) (ss : list Setup) :
  h !! l = Some (HObject [(lit "name", HString n); (lit "setups", HRef a)]) ->
  h !! a = Some (HArray vs) ->
  readAll (readSetup h) vs = Some ss ->
  readJob h (HRef l) = Some {| name := n; setups := ss |}.
Proof.
  intros El Ea Hss.
  unfold readJob, readStringProperty, readProperty, readArray, readElements.
  rewrite El.
  destruct (getProperty_pair (lit "name") (lit "setups") (HString n) (HRef a))
    as [-> ->]; [done|].
  simpl. rewrite Ea, Hss. reflexivity.
Qed.

End HeapReads.

(** Runs a program made of literals on a heap [h ++ d] with [d] known. *)
Ltac run_allocations :=
  cbv beta iota delta [HeapModel.getCiJobs HeapModel.default_export
    objectLiteral arrayLiteral str defineProperties appendElements
    mbind mret M_bind M_ret];
  repeat (first [rewrite alloc_fresh | rewrite update_fresh];
          cbv beta iota;
          cbn [length app Nat.add alter list_alter addProperty addElement]).

Ltac fresh_lookup := rewrite lookup_fresh; reflexivity.

Ltac read_setups :=
  cbn [readAll]; repeat (erewrite readSetup_at by fresh_lookup); reflexivity.

Ltac read_jobs :=
  unfold readJobs, readArray, readElements;
  rewrite lookup_fresh; cbn [lookup list_lookup readAll];
  repeat (erewrite readJob_at; [ | fresh_lookup | fresh_lookup | read_setups ]);
  reflexivity.

(** On any heap the call appends its objects and returns the new array,
    which reads as the list of records of [TestE2EConfig.getCiJobs]. *)
Lemma getCiJobs_run (h : heap) :
  exists fresh,
    HeapModel.getCiJobs h = (HRef (length h + 6), h ++ fresh) /\
    readJobs (h ++ fresh) (HRef (length h + 6)) =
      Some (TestE2EConfig.getCiJobs ()).
Proof.
  eexists. split.
  - etransitivity;
      [exact (f_equal HeapModel.getCiJobs (eq_sym (app_nil_r h)))|].
    run_allocations. reflexivity.
  - read_jobs.
Qed.

Lemma default_export_run (h : heap) :
  exists fresh,
    HeapModel.default_export h = (HRef (length h + 0), h ++ fresh) /\
    readExportJobs (h ++ fresh) (HRef (length h + 0)) =
      Some (TestE2EConfig.getCiJobs ()).
Proof.
  eexists. split.
  - etransitivity;
      [exact (f_equal HeapModel.default_export (eq_sym (app_nil_r h)))|].
    run_allocations. reflexivity.
  - unfold readExportJobs, readProperty.
    rewrite lookup_fresh. cbn [lookup list_lookup].
    destruct (getProperty_pair (lit "ci") (lit "tolerateError")
                (HRef (length h + 1)) (HFunction (lit "tolerateError")))
      as [-> _]; [done|].
    rewrite lookup_fresh. cbn [lookup list_lookup].
    rewrite getProperty_single.
    read_jobs.
Qed.

(** Not every computation on the heap returns the same value from every
    heap: one that hands out an object of the environment does not. *)
Example heap_reader_depends_on_heap :
  readJobs (snd ((fun h : heap => (HRef 0, h)) []))
           (fst ((fun h : heap => (HRef 0, h)) [])) <>
  readJobs (snd ((fun h : heap => (HRef 0, h)) [HArray []]))
           (fst ((fun h : heap => (HRef 0, h)) [HArray []])).
Proof. vm_compute. discriminate. Qed.

